(** * AI_chatbot: the glyph script and the image script

    A shallow embedding of the two scripts of the repository,

      - [test-random-stuff.py], which builds the string [monster] out of one
        Thai base character and runs of combining marks and prints it, and
      - [testgeneration.py], which asks a generative-image service for a
        picture and shows every part of the answer that carries image data.

    Python strings are lists of Unicode code points, external calls are
    operations of a small effect signature that an arbitrary environment
    answers (by returning or by raising), and a run records every call it
    made together with its outcome. *)

From Stdlib Require Import ZArith List String Bool Lia.
Import ListNotations.
Open Scope Z_scope.

(** ** Python values *)

Module Py.

(** A Python [str] is a sequence of code points. *)
Definition codepoint := Z.
Definition str := list codepoint.

(** A raised exception: its class and its message. *)
Record exn : Type := Exn { exn_class : string; exn_msg : string }.

(** A result in the exception monad: [inl e] is "raised [e]". *)
Definition Except (A : Type) : Type := (exn + A)%type.

Fixpoint repeat_str (s : str) (n : nat) : str :=
  match n with
  | O => []
  | S n' => s ++ repeat_str s n'
  end.

(** [s * n] on strings, for the counts a string can be repeated with (the
    script uses 5, 10, 3, 5 and 2); a count that is not positive gives the
    empty string.  Counts beyond the index range of the interpreter, at
    which [s * n] raises [OverflowError], are outside this definition. *)
Definition str_mul (s : str) (n : Z) : str := repeat_str s (Z.to_nat n).

(** [len(s)] *)
Definition len (s : str) : Z := Z.of_nat (List.length s).

(** Truth value of an attribute that is either [None] or an object
    without [__bool__] and [__len__]. *)
Definition truthy {A : Type} (o : option A) : bool :=
  match o with
  | Some _ => true
  | None => false
  end.

End Py.

(** ** The part of the Unicode character database the script touches *)

Module Unicode.
Import Py.

Definition in_range (lo hi c : codepoint) : bool := (lo <=? c) && (c <=? hi).

(** General category Me (enclosing mark), restricted to the block
    Combining Diacritical Marks for Symbols. *)
Definition is_enclosing_mark (c : codepoint) : bool :=
  in_range 0x20DD 0x20E0 c || in_range 0x20E2 0x20E4 c.

(** General category Mn (nonspacing mark), restricted to the blocks
    Combining Diacritical Marks, Thai and Combining Diacritical Marks for
    Symbols. *)
Definition is_nonspacing_mark (c : codepoint) : bool :=
  in_range 0x0300 0x036F c
  || (c =? 0x0E31) || in_range 0x0E34 0x0E3A c || in_range 0x0E47 0x0E4E c
  || in_range 0x20D0 0x20DC c || (c =? 0x20E1) || in_range 0x20E5 0x20F0 c.

Definition is_combining_mark (c : codepoint) : bool :=
  is_nonspacing_mark c || is_enclosing_mark c.

(** Marks drawn above their base: canonical combining class 230 in the
    block Combining Diacritical Marks, and the Thai signs written above
    the consonant. *)
Definition is_above_mark (c : codepoint) : bool :=
  in_range 0x0300 0x0314 c || in_range 0x033D 0x0344 c || (c =? 0x0346)
  || in_range 0x034A 0x034C c || in_range 0x0350 0x0352 c || (c =? 0x0357)
  || (c =? 0x035B) || in_range 0x0363 0x036F c
  || (c =? 0x0E31) || in_range 0x0E34 0x0E37 c || in_range 0x0E47 0x0E4E c.

(** Marks drawn below their base: canonical combining class 220 in the
    block Combining Diacritical Marks, and the Thai vowels and the
    phinthu written below the consonant. *)
Definition is_below_mark (c : codepoint) : bool :=
  in_range 0x0316 0x0319 c || in_range 0x031C 0x0320 c
  || in_range 0x0323 0x0326 c || in_range 0x0329 0x0333 c
  || in_range 0x0339 0x033C c || in_range 0x0347 0x0349 c
  || in_range 0x034D 0x034E c || in_range 0x0353 0x0356 c
  || in_range 0x0359 0x035A c
  || in_range 0x0E38 0x0E3A c.

(** General category Lo within the Thai block: the consonants and the
    spacing vowels. *)
Definition is_thai_letter (c : codepoint) : bool :=
  in_range 0x0E01 0x0E30 c || in_range 0x0E32 0x0E33 c
  || in_range 0x0E40 0x0E45 c.

Definition is_surrogate (c : codepoint) : bool := in_range 0xD800 0xDFFF c.

(** UTF-8 of one scalar value; [None] where UTF-8 has no encoding
    (surrogates and values outside the code space). *)
Definition utf8_encode_cp (c : codepoint) : option (list Z) :=
  if c <? 0 then None
  else if c <? 0x80 then Some [c]
  else if c <? 0x800 then
    Some [Z.lor 0xC0 (Z.shiftr c 6); Z.lor 0x80 (Z.land c 0x3F)]
  else if c <? 0x10000 then
    if is_surrogate c then None
    else Some [Z.lor 0xE0 (Z.shiftr c 12);
               Z.lor 0x80 (Z.land (Z.shiftr c 6) 0x3F);
               Z.lor 0x80 (Z.land c 0x3F)]
  else if c <? 0x110000 then
    Some [Z.lor 0xF0 (Z.shiftr c 18);
          Z.lor 0x80 (Z.land (Z.shiftr c 12) 0x3F);
          Z.lor 0x80 (Z.land (Z.shiftr c 6) 0x3F);
          Z.lor 0x80 (Z.land c 0x3F)]
  else None.

(** The UTF-8 bytes of a string without surrogates. *)
Definition utf8 (s : str) : list Z :=
  flat_map (fun c => match utf8_encode_cp c with
                     | Some bs => bs
                     | None => []
                     end) s.

End Unicode.

(** ** The string built by [test-random-stuff.py] *)

Module GlyphString.
Import Py.

(** Thai ko kai (center) *)
Definition base : str := [0x0E01].

Definition side_wall : str :=
  str_mul [0x20DD] 5 ++      (* enclosing circle *)
  str_mul [0x20DE] 5 ++      (* enclosing square *)
  str_mul [0x20DF] 5.        (* enclosing diamond *)

Definition up_stack : str :=
  str_mul [0x0E47] 10 ++     (* Thai mai taikhu *)
  str_mul [0x0304; 0x0305; 0x030D; 0x0342; 0x035B; 0x0352] 3.

Definition down_stack : str :=
  str_mul [0x0E38] 5 ++      (* Thai below vowel *)
  str_mul [0x0317; 0x0316; 0x0320; 0x0329; 0x032A; 0x0330] 2.

Definition monster : str := base ++ side_wall ++ up_stack ++ down_stack.

End GlyphString.

(** ** External calls, programs and runs *)

Module Effects.
Import Py.

(** Objects owned by the libraries are known to the scripts by a handle
    only. *)
Inductive Client : Type := ClientRef (id : nat).
Inductive Response : Type := ResponseRef (id : nat).
Inductive Image : Type := ImageRef (id : nat).

(** The two attributes of a response part a script can tell apart:
    [inline_data] is [None] or a blob. *)
Record Blob : Type := { mime_type : string; data : list Z }.
Record Part : Type := { text : option string; inline_data : option Blob }.

(** Every call a script makes into code it does not own, indexed by the
    type of what the call returns. *)
Inductive call : Type -> Type :=
| Import (modname : string) : call unit
| ImportFrom (modname name : string) : call unit
| StdoutReconfigure (encoding : string) : call unit
| Print (s : str) : call unit
| NewClient : call Client
| GenerateContent (client : Client) (model contents : string) : call Response
| ResponseParts (response : Response) : call (list Part)
| AsImage (part : Part) : call Image
| ImageShow (image : Image) : call unit.

(** A script: a finite tree of calls, each continued with the value the
    call returned.  There is no node that catches an exception. *)
Inductive prog (R : Type) : Type :=
| Ret (r : R)
| Call {X : Type} (c : call X) (k : X -> prog R).
Arguments Ret {R} r.
Arguments Call {R X} c k.

Definition perform {X : Type} (c : call X) : prog X := Call c Ret.

Fixpoint bind {A B : Type} (p : prog A) (f : A -> prog B) : prog B :=
  match p with
  | Ret a => f a
  | Call c k => Call c (fun x => bind (k x) f)
  end.

(** [for x in xs: body x] *)
Fixpoint for_each {A : Type} (xs : list A) (body : A -> prog unit)
  : prog unit :=
  match xs with
  | [] => Ret tt
  | x :: xs' => bind (body x) (fun _ => for_each xs' body)
  end.

(** One line of the record of a run: the call and how it ended. *)
Inductive entry : Type :=
| Entry {X : Type} (c : call X) (r : Except X).

Definition raised (en : entry) : option exn :=
  match en with
  | Entry _ (inl e) => Some e
  | Entry _ (inr _) => None
  end.

(** The exception of the first call of a record that raised. *)
Fixpoint first_raise (log : list entry) : option exn :=
  match log with
  | [] => None
  | en :: log' =>
      match raised en with
      | Some e => Some e
      | None => first_raise log'
      end
  end.

(** What a call does to the world outside. *)
Inductive effect_kind : Type :=
| StdoutEffect      (* standard output: its settings and its text *)
| NetworkEffect     (* a request to the remote service *)
| DisplayEffect     (* an image handed to a viewer *)
| NoEffect.         (* objects built, read or loaded in the process's memory *)

Definition effect_of {X : Type} (c : call X) : effect_kind :=
  match c with
  | Import _ => NoEffect
  | ImportFrom _ _ => NoEffect
  | StdoutReconfigure _ => StdoutEffect
  | Print _ => StdoutEffect
  | NewClient => NoEffect
  | GenerateContent _ _ _ => NetworkEffect
  | ResponseParts _ => NoEffect
  | AsImage _ => NoEffect
  | ImageShow _ => DisplayEffect
  end.

Definition entry_effect (en : entry) : effect_kind :=
  match en with Entry c _ => effect_of c end.

(** The phase of a script a call belongs to. *)
Inductive phase : Type :=
| ImportPhase | StdoutPhase | ClientPhase | ApiCallPhase | IterationPhase
| DisplayPhase.

Definition phase_of {X : Type} (c : call X) : phase :=
  match c with
  | Import _ => ImportPhase
  | ImportFrom _ _ => ImportPhase
  | StdoutReconfigure _ => StdoutPhase
  | Print _ => StdoutPhase
  | NewClient => ClientPhase
  | GenerateContent _ _ _ => ApiCallPhase
  | ResponseParts _ => IterationPhase
  | AsImage _ => DisplayPhase
  | ImageShow _ => DisplayPhase
  end.

Definition entry_phase (en : entry) : phase :=
  match en with Entry c _ => phase_of c end.

(** The strings handed to [print], in order. *)
Fixpoint printed (log : list entry) : list str :=
  match log with
  | [] => []
  | Entry (Print s) _ :: log' => s :: printed log'
  | _ :: log' => printed log'
  end.

(** The [(model, contents)] of every request sent, in order. *)
Fixpoint api_calls (log : list entry) : list (string * string) :=
  match log with
  | [] => []
  | Entry (GenerateContent _ m c) _ :: log' => (m, c) :: api_calls log'
  | _ :: log' => api_calls log'
  end.

(** The images handed to the viewer, in order. *)
Fixpoint shown (log : list entry) : list Image :=
  match log with
  | [] => []
  | Entry (ImageShow i) _ :: log' => i :: shown log'
  | _ :: log' => shown log'
  end.

(** The parts turned into images, in order. *)
Fixpoint converted (log : list entry) : list Part :=
  match log with
  | [] => []
  | Entry (AsImage p) _ :: log' => p :: converted log'
  | _ :: log' => converted log'
  end.

Section Run.
(** The environment: a state and the answer it gives to each call. *)
Variable W : Type.
Variable handle : forall X : Type, call X -> W -> Except X * W.

(** Running a script: a call that raises ends the run with that
    exception. *)
Fixpoint run {R : Type} (p : prog R) (w : W)
  : Except R * W * list entry :=
  match p with
  | Ret r => (inr r, w, [])
  | Call c k =>
      match handle _ c w with
      | (inl e, w') => (inl e, w', [Entry c (inl e)])
      | (inr x, w') =>
          let '(res, w'', log) := run (k x) w' in
          (res, w'', Entry c (inr x) :: log)
      end
  end.

Definition result {R : Type} (p : prog R) (w : W) : Except R :=
  fst (fst (run p w)).
Definition final {R : Type} (p : prog R) (w : W) : W :=
  snd (fst (run p w)).
Definition trace {R : Type} (p : prog R) (w : W) : list entry :=
  snd (run p w).
End Run.

End Effects.

(** ** Standard output as a text stream *)

Module TextStream.
Import Py Unicode Effects.

Inductive codec : Type := Utf8 | Ascii | Latin1.

(** What an encoder does with a character it cannot encode. *)
Inductive error_policy : Type := Strict | Replace | Ignore.

(** What a written line feed becomes. *)
Inductive newline : Type := LF | CRLF | CR.

Definition newline_str (n : newline) : str :=
  match n with
  | LF => [10]
  | CRLF => [13; 10]
  | CR => [13]
  end.

(** The text layer over a byte stream: its settings, whether it has been
    closed, and the bytes handed to the byte stream so far. *)
Record stream : Type := Stream {
  encoding : codec;
  errors : error_policy;
  line_ending : newline;
  closed : bool;
  written : list Z
}.

Definition lookup_codec (name : string) : option codec :=
  if (String.eqb name "utf-8" || String.eqb name "utf8"
      || String.eqb name "UTF-8")%bool then Some Utf8
  else if (String.eqb name "ascii" || String.eqb name "us-ascii")%bool
  then Some Ascii
  else if (String.eqb name "latin-1" || String.eqb name "latin1"
           || String.eqb name "iso-8859-1")%bool then Some Latin1
  else None.

Definition encode_cp (c : codec) (x : codepoint) : option (list Z) :=
  match c with
  | Utf8 => utf8_encode_cp x
  | Ascii => if in_range 0 0x7F x then Some [x] else None
  | Latin1 => if in_range 0 0xFF x then Some [x] else None
  end.

Definition encode_error : exn :=
  Exn "UnicodeEncodeError" "codec can't encode character".
Definition closed_error : exn :=
  Exn "ValueError" "I/O operation on closed file.".
Definition lookup_error : exn := Exn "LookupError" "unknown encoding".

(** [s.encode(codec, errors)] *)
Fixpoint encode (c : codec) (pol : error_policy) (s : str)
  : Except (list Z) :=
  match s with
  | [] => inr []
  | x :: s' =>
      match encode_cp c x with
      | Some bs =>
          match encode c pol s' with
          | inr rest => inr (bs ++ rest)
          | inl e => inl e
          end
      | None =>
          match pol with
          | Strict => inl encode_error
          | Replace =>
              match encode c pol s' with
              | inr rest => inr (63 :: rest)
              | inl e => inl e
              end
          | Ignore => encode c pol s'
          end
      end
  end.

(** Every line feed of the text becomes the stream's line ending. *)
Definition translate (n : newline) (s : str) : str :=
  flat_map (fun c => if c =? 10 then newline_str n else [c]) s.

(** [stream.reconfigure(encoding=name)]: the stream is flushed, the codec
    is looked up, and the error policy becomes strict since none is
    given; the line ending stays. *)
Definition reconfigure (name : string) (io : stream)
  : Except unit * stream :=
  if closed io then (inl closed_error, io)
  else
    match lookup_codec name with
    | None => (inl lookup_error, io)
    | Some c =>
        (inr tt,
         Stream c Strict (line_ending io) (closed io) (written io))
    end.

(** [stream.write(s)] *)
Definition write (s : str) (io : stream) : Except unit * stream :=
  if closed io then (inl closed_error, io)
  else
    match encode (encoding io) (errors io) (translate (line_ending io) s)
    with
    | inl e => (inl e, io)
    | inr bs =>
        (inr tt,
         Stream (encoding io) (errors io) (line_ending io) (closed io)
                (written io ++ bs))
    end.

(** [print(s)] with the default separator, end and file: the text and a
    line feed go to standard output in one write. *)
Definition print (s : str) (io : stream) : Except unit * stream :=
  write (s ++ [10]) io.

(** An environment whose standard output is a text stream; every other
    call is answered by the rest of the environment. *)
Definition with_stdout {W : Type}
    (rest : forall X : Type, call X -> W -> Except X * W)
    (X : Type) (c : call X) (w : stream * W) : Except X * (stream * W) :=
  match c in call T return Except T * (stream * W) with
  | StdoutReconfigure name =>
      let '(r, io) := reconfigure name (fst w) in (r, (io, snd w))
  | Print s =>
      let '(r, io) := print s (fst w) in (r, (io, snd w))
  | c' =>
      let '(r, w') := rest _ c' (snd w) in (r, (fst w, w'))
  end.

End TextStream.

(** ** [test-random-stuff.py] *)

Module Glyph.
Import Py Effects GlyphString.

(** Lines 2 to 35: the script once [sys] is imported. *)
Definition main : prog unit :=
  bind (perform (StdoutReconfigure "utf-8")) (fun _ =>
  perform (Print monster)).

(** The whole module, from [import sys] on. *)
Definition script : prog unit :=
  bind (perform (Import "sys")) (fun _ => main).

End Glyph.

(** ** [testgeneration.py] *)

Module ImageGen.
Import Py Effects.

Definition model : string := "gemini-2.5-flash-image".
Definition contents : string :=
  "Create a picture of a futuristic banana with neon lights in a cyberpunk city.".

Definition show_part (part : Part) : prog unit :=
  if truthy (inline_data part) then
    bind (perform (AsImage part)) (fun image =>
    perform (ImageShow image))
  else Ret tt.

(** Lines 4 to 14: the script once its two imports have succeeded. *)
Definition main : prog unit :=
  bind (perform NewClient) (fun client =>
  bind (perform (GenerateContent client model contents)) (fun response =>
  bind (perform (ResponseParts response)) (fun parts =>
  for_each parts show_part))).

(** The whole module, from [from google import genai] and
    [from PIL import Image] on; either import raises when the package is
    not installed. *)
Definition script : prog unit :=
  bind (perform (ImportFrom "google" "genai")) (fun _ =>
  bind (perform (ImportFrom "PIL" "Image")) (fun _ =>
  main)).

End ImageGen.

(** ** Some environments *)

Module Worlds.
Import Py Effects TextStream.

(** An environment in which every call returns: the service answers with
    the given parts, and the state counts the images made so far. *)
Definition answering (ps : list Part) (X : Type) (c : call X) (n : nat)
  : Except X * nat :=
  match c in call T return Except T * nat with
  | Import _ => (inr tt, n)
  | ImportFrom _ _ => (inr tt, n)
  | StdoutReconfigure _ => (inr tt, n)
  | Print _ => (inr tt, n)
  | NewClient => (inr (ClientRef 0), n)
  | GenerateContent _ _ _ => (inr (ResponseRef 0), n)
  | ResponseParts _ => (inr ps, n)
  | AsImage _ => (inr (ImageRef n), S n)
  | ImageShow _ => (inr tt, n)
  end.

Definition missing_key : exn :=
  Exn "ValueError" "Missing key inputs argument!".

(** The same, except that no API key is configured: building the client
    raises. *)
Definition no_credentials (ps : list Part) (X : Type) (c : call X) (n : nat)
  : Except X * nat :=
  match c in call T return Except T * nat with
  | NewClient => (inl missing_key, n)
  | c' => answering ps _ c' n
  end.

Definition png : Blob := {| mime_type := "image/png"; data := [137; 80; 78; 71] |}.
Definition text_part : Part := {| text := Some "Here is your banana."%string; inline_data := None |}.
Definition image_part : Part := {| text := None; inline_data := Some png |}.

(** Standard output of a POSIX terminal under the C locale, nothing
    written yet. *)
Definition posix_stdout : stream := Stream Ascii Strict LF false [].

(** Standard output of a Windows console with a legacy code page. *)
Definition windows_stdout : stream := Stream Latin1 Strict CRLF false [].

End Worlds.

(** ** Vocabulary of the statements *)

Module Shape.
Import Py Effects.

(** Every call of a script satisfies [Q], whatever the calls before it
    returned. *)
Fixpoint all_calls {R : Type} (Q : forall X : Type, call X -> Prop)
    (p : prog R) : Prop :=
  match p with
  | Ret _ => True
  | Call c k => Q _ c /\ forall x, all_calls Q (k x)
  end.

Definition entry_call (Q : forall X : Type, call X -> Prop) (en : entry)
  : Prop :=
  match en with Entry c _ => Q _ c end.

(** The parts the response gave to the loop. *)
Fixpoint iterated (log : list entry) : list Part :=
  match log with
  | [] => []
  | Entry (ResponseParts _) (inr ps) :: log' => ps ++ iterated log'
  | _ :: log' => iterated log'
  end.

Definition has_inline_data (p : Part) : bool := truthy (inline_data p).

(** The record of a loop over the parts in which nothing raised: in the
    order of the parts, a part without [inline_data] leaves no line, and a
    part with [inline_data] is turned into an image which is then
    shown. *)
Inductive loop_trace : list Part -> list entry -> Prop :=
| loop_done : loop_trace [] []
| loop_skip p ps log :
    inline_data p = None ->
    loop_trace ps log ->
    loop_trace (p :: ps) log
| loop_show p b image ps log :
    inline_data p = Some b ->
    loop_trace ps log ->
    loop_trace (p :: ps)
      (Entry (AsImage p) (inr image) :: Entry (ImageShow image) (inr tt)
         :: log).

(** Some call of the given phase raised [e]. *)
Definition raised_in (ph : phase) (log : list entry) (e : exn) : Prop :=
  exists en, In en log /\ entry_phase en = ph /\ raised en = Some e.

End Shape.

(** ** More vocabulary and environments *)

Module Outcomes.
Import Py Effects TextStream.

(** The images [as_image] returned, in order. *)
Fixpoint made (log : list entry) : list Image :=
  match log with
  | [] => []
  | Entry (AsImage _) (inr image) :: log' => image :: made log'
  | _ :: log' => made log'
  end.

(** The strings [print] wrote, in order: the arguments of the calls of
    [print] that returned. *)
Fixpoint delivered (log : list entry) : list str :=
  match log with
  | [] => []
  | Entry (Print s) (inr _) :: log' => s :: delivered log'
  | _ :: log' => delivered log'
  end.

Definition module_not_found : exn :=
  Exn "ModuleNotFoundError" "No module named 'google'".

(** An environment in which the package [google] is not installed. *)
Definition not_installed (ps : list Part) (X : Type) (c : call X) (n : nat)
  : Except X * nat :=
  match c in call T return Except T * nat with
  | ImportFrom _ _ => (inl module_not_found, n)
  | c' => Worlds.answering ps _ c' n
  end.

Definition decode_error : exn :=
  Exn "UnidentifiedImageError" "cannot identify image file".
Definition viewer_error : exn := Exn "OSError" "no image viewer found".

(** A part whose inline data is not an image. *)
Definition corrupt_part : Part :=
  {| text := None;
     inline_data := Some {| mime_type := "image/png"; data := [] |} |}.

(** An environment that answers with the given parts, cannot turn empty
    data into an image, and whose viewer gives up at the image numbered
    [limit]. *)
Definition picky (limit : nat) (ps : list Part) (X : Type) (c : call X)
    (n : nat) : Except X * nat :=
  match c in call T return Except T * nat with
  | AsImage p =>
      match inline_data p with
      | Some b =>
          match data b with
          | [] => (inl decode_error, n)
          | _ :: _ => (inr (ImageRef n), S n)
          end
      | None => (inl decode_error, n)
      end
  | ImageShow (ImageRef i) =>
      if Nat.eqb i limit then (inl viewer_error, n) else (inr tt, n)
  | c' => Worlds.answering ps _ c' n
  end.

(** Standard output after [sys.stdout.close()]. *)
Definition closed_stdout : stream := Stream Utf8 Strict LF true [104; 105; 10].

End Outcomes.

(** * Properties *)

(** ** Runs in general *)

Module RunFacts.
Import Py Effects.

Section Run.
Variable W : Type.
Variable handle : forall X : Type, call X -> W -> Except X * W.

Lemma run_bind {A B : Type} (p : prog A) (f : A -> prog B) (w : W) :
  run W handle (bind p f) w =
  match run W handle p w with
  | (inl e, w', log) => (inl e, w', log)
  | (inr a, w', log) =>
      let '(res, w'', log') := run W handle (f a) w' in
      (res, w'', log ++ log')
  end.
Proof.
  revert w. induction p as [a | X c k IH]; intro w; simpl.
  - destruct (run W handle (f a) w) as [[res w''] log']. reflexivity.
  - destruct (handle X c w) as [[e | x] w']; [reflexivity |].
    rewrite IH.
    destruct (run W handle (k x) w') as [[[e | a] w''] log]; [reflexivity |].
    destruct (run W handle (f a) w'') as [[res w3] log']. reflexivity.
Qed.

Lemma run_perform {X : Type} (c : call X) (w : W) :
  run W handle (perform c) w =
  (fst (handle X c w), snd (handle X c w), [Entry c (fst (handle X c w))]).
Proof.
  unfold perform. simpl.
  destruct (handle X c w) as [[e | x] w']; reflexivity.
Qed.

(** A run ends with an exception exactly when one of its calls raised,
    and then with the exception of that call. *)
Lemma result_first_raise {R : Type} (p : prog R) (w : W) (e : exn) :
  result W handle p w = inl e <->
  first_raise (trace W handle p w) = Some e.
Proof.
  unfold result, trace. revert w.
  induction p as [r | X c k IH]; intro w; simpl.
  - split; discriminate.
  - destruct (handle X c w) as [[e' | x] w']; simpl.
    + split; intro H; inversion H; reflexivity.
    + specialize (IH x w').
      destruct (run W handle (k x) w') as [[res w''] log]. simpl in *.
      exact IH.
Qed.

(** The call that raised is the last one made. *)
Lemma raise_is_last {R : Type} (p : prog R) (w : W) :
  forall pre en post,
    trace W handle p w = pre ++ en :: post ->
    raised en <> None -> post = [].
Proof.
  unfold trace. revert w.
  induction p as [r | X c k IH]; intros w pre en post; simpl.
  - destruct pre; discriminate.
  - destruct (handle X c w) as [[e' | x] w'].
    + simpl. destruct pre as [| en' pre]; simpl; intros H _.
      * inversion H. reflexivity.
      * destruct pre; discriminate.
    + specialize (IH x w').
      destruct (run W handle (k x) w') as [[res w''] log]. simpl in *.
      destruct pre as [| en' pre]; simpl; intros H Hr.
      * inversion H; subst. simpl in Hr. congruence.
      * inversion H; subst. eapply IH; eauto.
Qed.

Lemma trace_bind_ok {A B : Type} (p : prog A) (f : A -> prog B) (w : W) a :
  result W handle p w = inr a ->
  trace W handle (bind p f) w =
  trace W handle p w ++ trace W handle (f a) (final W handle p w).
Proof.
  unfold result, trace, final. rewrite run_bind.
  destruct (run W handle p w) as [[[e | a'] w'] log]; simpl; [discriminate |].
  intro H; inversion H; subst.
  destruct (run W handle (f a) w') as [[res w''] log']. reflexivity.
Qed.

End Run.
End RunFacts.

(** ** The glyph script *)

Module GlyphFacts.
Import Py Unicode Effects TextStream GlyphString Outcomes RunFacts.

Section AnyEnvironment.
Variable W : Type.
Variable handle : forall X : Type, call X -> W -> Except X * W.

(** The record of a run of the glyph script: the reconfiguration, and
    the print when the reconfiguration returned. *)
Lemma glyph_trace (w : W) :
  trace W handle Glyph.main w =
  match handle unit (StdoutReconfigure "utf-8") w with
  | (inl e, _) => [Entry (StdoutReconfigure "utf-8") (inl e)]
  | (inr u, w') =>
      [Entry (StdoutReconfigure "utf-8") (inr u);
       Entry (Print monster) (fst (handle unit (Print monster) w'))]
  end.
Proof.
  unfold trace, Glyph.main, perform. simpl.
  destruct (handle unit (StdoutReconfigure "utf-8") w) as [[e | u] w'];
    [reflexivity |].
  simpl. destruct (handle unit (Print monster) w') as [[e | u'] w''];
    reflexivity.
Qed.

Lemma glyph_result (w : W) :
  result W handle Glyph.main w =
  match handle unit (StdoutReconfigure "utf-8") w with
  | (inl e, _) => inl e
  | (inr _, w') => fst (handle unit (Print monster) w')
  end.
Proof.
  unfold result, Glyph.main, perform. simpl.
  destruct (handle unit (StdoutReconfigure "utf-8") w) as [[e | u] w'];
    [reflexivity |].
  simpl. destruct (handle unit (Print monster) w') as [[e | u'] w''];
    reflexivity.
Qed.

Lemma glyph_printed (w : W) :
  printed (trace W handle Glyph.main w) =
  match fst (handle unit (StdoutReconfigure "utf-8") w) with
  | inl _ => []
  | inr _ => [monster]
  end.
Proof.
  rewrite glyph_trace.
  destruct (handle unit (StdoutReconfigure "utf-8") w) as [[e | u] w'];
    reflexivity.
Qed.

(** What the script wrote: [monster], once both calls on standard output
    returned, and nothing otherwise. *)
Lemma glyph_delivered (w : W) :
  delivered (trace W handle Glyph.main w) =
  match handle unit (StdoutReconfigure "utf-8") w with
  | (inl _, _) => []
  | (inr _, w') =>
      match fst (handle unit (Print monster) w') with
      | inl _ => []
      | inr _ => [monster]
      end
  end.
Proof.
  rewrite glyph_trace.
  destruct (handle unit (StdoutReconfigure "utf-8") w) as [[e | u] w'];
    [reflexivity |].
  destruct (fst (handle unit (Print monster) w')) as [e | u']; reflexivity.
Qed.

End AnyEnvironment.

(** C1: in every environment the glyph script makes its two calls in
    order, the reconfiguration of standard output and then, when that
    returned, [print] with exactly the string [monster]; what it writes is
    [monster], once, when both calls returned, and nothing otherwise.
    [monster] is [base ++ side_wall ++ up_stack ++ down_stack], code point
    by code point the 61 listed below: [base] is the single Thai letter ko
    kai; [side_wall] is the enclosing circle, square and diamond five times
    each; [up_stack] is mai taikhu ten times and then a group of six marks
    above three times; [down_stack] is the below vowel sara u five times
    and then a group of six marks below twice; every code point after the
    first is a combining mark. *)
Theorem glyph_prints_monster :
  forall (W : Type) (handle : forall X : Type, call X -> W -> Except X * W)
         (w : W),
    trace W handle Glyph.main w =
      match handle unit (StdoutReconfigure "utf-8") w with
      | (inl e, _) => [Entry (StdoutReconfigure "utf-8") (inl e)]
      | (inr u, w') =>
          [Entry (StdoutReconfigure "utf-8") (inr u);
           Entry (Print monster) (fst (handle unit (Print monster) w'))]
      end
    /\ delivered (trace W handle Glyph.main w) =
         match handle unit (StdoutReconfigure "utf-8") w with
         | (inl _, _) => []
         | (inr _, w') =>
             match fst (handle unit (Print monster) w') with
             | inl _ => []
             | inr _ => [monster]
             end
         end
    /\ monster =
         [0x0E01;
          0x20DD; 0x20DD; 0x20DD; 0x20DD; 0x20DD;
          0x20DE; 0x20DE; 0x20DE; 0x20DE; 0x20DE;
          0x20DF; 0x20DF; 0x20DF; 0x20DF; 0x20DF;
          0x0E47; 0x0E47; 0x0E47; 0x0E47; 0x0E47;
          0x0E47; 0x0E47; 0x0E47; 0x0E47; 0x0E47;
          0x0304; 0x0305; 0x030D; 0x0342; 0x035B; 0x0352;
          0x0304; 0x0305; 0x030D; 0x0342; 0x035B; 0x0352;
          0x0304; 0x0305; 0x030D; 0x0342; 0x035B; 0x0352;
          0x0E38; 0x0E38; 0x0E38; 0x0E38; 0x0E38;
          0x0317; 0x0316; 0x0320; 0x0329; 0x032A; 0x0330;
          0x0317; 0x0316; 0x0320; 0x0329; 0x032A; 0x0330]
    /\ monster = base ++ side_wall ++ up_stack ++ down_stack
    /\ base = [0x0E01]
    /\ is_thai_letter 0x0E01 = true
    /\ is_combining_mark 0x0E01 = false
    /\ side_wall = repeat 0x20DD 5 ++ repeat 0x20DE 5 ++ repeat 0x20DF 5
    /\ up_stack =
         repeat 0x0E47 10
         ++ [0x0304; 0x0305; 0x030D; 0x0342; 0x035B; 0x0352]
         ++ [0x0304; 0x0305; 0x030D; 0x0342; 0x035B; 0x0352]
         ++ [0x0304; 0x0305; 0x030D; 0x0342; 0x035B; 0x0352]
    /\ down_stack =
         repeat 0x0E38 5
         ++ [0x0317; 0x0316; 0x0320; 0x0329; 0x032A; 0x0330]
         ++ [0x0317; 0x0316; 0x0320; 0x0329; 0x032A; 0x0330]
    /\ forallb is_enclosing_mark side_wall = true
    /\ forallb is_above_mark up_stack = true
    /\ forallb is_below_mark down_stack = true
    /\ hd_error monster = Some 0x0E01
    /\ forallb is_combining_mark (tl monster) = true.
Proof.
  intros W handle w.
  split; [apply glyph_trace |]. split; [apply glyph_delivered |].
  repeat split; vm_compute; reflexivity.
Qed.




(** C6: [monster] has 61 code points: 1 base character, 15 enclosing
    marks (3 marks, 5 times each), 28 marks above (10 mai taikhu and a
    group of 6 three times) and 17 marks below (5 below vowels and a
    group of 6 twice). *)
Theorem monster_length :
  len monster = 61
  /\ len base = 1
  /\ len side_wall = 15
  /\ len (str_mul [0x20DD] 5) = 5 /\ len (str_mul [0x20DE] 5) = 5
  /\ len (str_mul [0x20DF] 5) = 5
  /\ NoDup [0x20DD; 0x20DE; 0x20DF]
  /\ len up_stack = 28
  /\ len (str_mul [0x0E47] 10) = 10
  /\ len [0x0304; 0x0305; 0x030D; 0x0342; 0x035B; 0x0352] = 6
  /\ len (str_mul [0x0304; 0x0305; 0x030D; 0x0342; 0x035B; 0x0352] 3) = 18
  /\ len down_stack = 17
  /\ len (str_mul [0x0E38] 5) = 5
  /\ len [0x0317; 0x0316; 0x0320; 0x0329; 0x032A; 0x0330] = 6
  /\ len (str_mul [0x0317; 0x0316; 0x0320; 0x0329; 0x032A; 0x0330] 2) = 12.
Proof.
  repeat split; try reflexivity.
  repeat constructor; simpl; intuition lia.
Qed.

End GlyphFacts.

(** ** The glyph script on a text stream *)

Module StdoutFacts.
Import Py Unicode Effects TextStream GlyphString RunFacts.

Lemma monster_line_utf8 (pol : error_policy) (nl : newline) :
  encode Utf8 pol (translate nl (monster ++ [10])) =
  inr (utf8 monster ++ utf8 (newline_str nl)).
Proof. destruct pol, nl; vm_compute; reflexivity. Qed.

Lemma reconfigure_open (io : stream) :
  closed io = false ->
  reconfigure "utf-8" io =
  (inr tt, Stream Utf8 Strict (line_ending io) false (written io)).
Proof.
  intro H. unfold reconfigure. rewrite H. reflexivity.
Qed.

Lemma print_monster_utf8 (pol : error_policy) (nl : newline) (wr : list Z) :
  print monster (Stream Utf8 pol nl false wr) =
  (inr tt,
   Stream Utf8 pol nl false (wr ++ utf8 monster ++ utf8 (newline_str nl))).
Proof.
  unfold print, write.
  cbn [closed encoding errors line_ending written].
  rewrite monster_line_utf8. reflexivity.
Qed.

(** C9, as the code has it: on an open standard output, whatever its
    encoding, error policy and line ending were, the script first sets the
    encoding to UTF-8 and then prints, and the bytes the print adds are
    the UTF-8 encoding of [monster] followed by the line ending of the
    stream; the run ends without an exception. *)
Theorem glyph_bytes_utf8 :
  forall (W : Type) (rest : forall X : Type, call X -> W -> Except X * W)
         (w : W) (io : stream),
    closed io = false ->
    run (stream * W) (with_stdout rest) Glyph.main (io, w) =
    (inr tt,
     (Stream Utf8 Strict (line_ending io) false
             (written io ++ utf8 monster
                ++ utf8 (newline_str (line_ending io))), w),
     [Entry (StdoutReconfigure "utf-8") (inr tt);
      Entry (Print monster) (inr tt)]).
Proof.
  intros W rest w io Hopen.
  unfold Glyph.main, perform.
  cbn [bind run with_stdout fst snd].
  rewrite (reconfigure_open io Hopen).
  cbn [bind run with_stdout fst snd].
  rewrite print_monster_utf8. reflexivity.
Qed.

Lemma glyph_bytes_utf8_witness :
  closed Worlds.windows_stdout = false
  /\ run (stream * nat) (with_stdout (Worlds.answering [])) Glyph.main
         (Worlds.windows_stdout, 0%nat) =
     (inr tt,
      (Stream Utf8 Strict CRLF false (utf8 monster ++ [13; 10]), 0%nat),
      [Entry (StdoutReconfigure "utf-8") (inr tt);
       Entry (Print monster) (inr tt)]).
Proof.
  split; [reflexivity |].
  apply (glyph_bytes_utf8 nat (Worlds.answering []) 0%nat
           Worlds.windows_stdout).
  reflexivity.
Defined.

(** C9, as the claim has it, fails: on a POSIX standard output the bytes
    written are the UTF-8 encoding of [monster] and then a line feed, one
    byte more than the encoding of [monster]. *)
Lemma glyph_bytes_not_only_monster :
  written (fst (final (stream * nat) (with_stdout (Worlds.answering []))
                      Glyph.main (Worlds.posix_stdout, 0%nat)))
    = utf8 monster ++ [10]
  /\ written (fst (final (stream * nat) (with_stdout (Worlds.answering []))
                         Glyph.main (Worlds.posix_stdout, 0%nat)))
    <> utf8 monster.
Proof.
  split; [vm_compute; reflexivity |].
  intro H. apply (f_equal (@List.length Z)) in H.
  vm_compute in H. discriminate H.
Qed.

(** Without the reconfiguration the print raises on a stream whose codec
    has no Thai letters. *)
Lemma print_needs_reconfigure :
  print monster Worlds.posix_stdout = (inl encode_error, Worlds.posix_stdout).
Proof. vm_compute. reflexivity. Qed.

End StdoutFacts.

(** ** Records of runs *)

Module TraceFacts.
Import Py Effects Shape RunFacts.

Lemma all_calls_bind {A B : Type} (Q : forall X : Type, call X -> Prop)
    (p : prog A) (f : A -> prog B) :
  all_calls Q p -> (forall a, all_calls Q (f a)) -> all_calls Q (bind p f).
Proof.
  intros Hp Hf. induction p as [a | X c k IH]; simpl in *.
  - apply Hf.
  - destruct Hp as [Hc Hk]. split; [exact Hc |].
    intro x. apply IH. apply Hk.
Qed.

Lemma all_calls_for_each {A : Type} (Q : forall X : Type, call X -> Prop)
    (xs : list A) (body : A -> prog unit) :
  (forall x, all_calls Q (body x)) -> all_calls Q (for_each xs body).
Proof.
  intro Hbody. induction xs as [| x xs IH]; simpl.
  - exact I.
  - apply all_calls_bind; [apply Hbody | intros _; exact IH].
Qed.

Section Run.
Variable W : Type.
Variable handle : forall X : Type, call X -> W -> Except X * W.

(** What holds of every call of a script holds of every line of the
    record of any of its runs. *)
Lemma all_calls_trace {R : Type} (Q : forall X : Type, call X -> Prop)
    (p : prog R) (w : W) :
  all_calls Q p -> Forall (entry_call Q) (trace W handle p w).
Proof.
  unfold trace. revert w.
  induction p as [r | X c k IH]; intros w Hp; simpl in *.
  - constructor.
  - destruct Hp as [Hc Hk].
    destruct (handle X c w) as [[e | x] w']; simpl.
    + constructor; [exact Hc | constructor].
    + specialize (IH x w' (Hk x)).
      destruct (run W handle (k x) w') as [[res w''] log]. simpl in *.
      constructor; [exact Hc | exact IH].
Qed.

(** A run ends with [e] exactly when a call of the run raised [e]. *)
Lemma result_raised {R : Type} (p : prog R) (w : W) (e : exn) :
  result W handle p w = inl e <->
  exists en, In en (trace W handle p w) /\ raised en = Some e.
Proof.
  unfold result, trace. revert w.
  induction p as [r | X c k IH]; intro w; simpl.
  - split; [discriminate | intros [en [[] _]]].
  - destruct (handle X c w) as [[e' | x] w']; simpl.
    + split.
      * intro H. inversion H; subst.
        exists (Entry c (inl e)). split; [left; reflexivity | reflexivity].
      * intros [en [[Hen | []] Hr]]. subst en. simpl in Hr.
        inversion Hr. reflexivity.
    + specialize (IH x w').
      destruct (run W handle (k x) w') as [[res w''] log]. simpl in *.
      rewrite IH. split.
      * intros [en [Hin Hr]]. exists en. split; [right; exact Hin | exact Hr].
      * intros [en [[Hen | Hin] Hr]].
        -- subst en. discriminate Hr.
        -- exists en. split; assumption.
Qed.

(** A run ends normally exactly when no call of the run raised. *)
Lemma result_returned (p : prog unit) (w : W) :
  result W handle p w = inr tt <->
  Forall (fun en => raised en = None) (trace W handle p w).
Proof.
  split.
  - intro Hok. apply Forall_forall. intros en Hin.
    destruct (raised en) as [e |] eqn:Hr; [| reflexivity].
    assert (Hbad : result W handle p w = inl e)
      by (apply result_raised; exists en; split; assumption).
    rewrite Hok in Hbad. discriminate Hbad.
  - intro Hall.
    destruct (result W handle p w) as [e | []] eqn:Hres; [| reflexivity].
    apply result_raised in Hres. destruct Hres as [en [Hin Hr]].
    rewrite Forall_forall in Hall. rewrite (Hall en Hin) in Hr.
    discriminate Hr.
Qed.

End Run.
End TraceFacts.

(** ** The image script *)

Module ImageFacts.
Import Py Effects Shape RunFacts TraceFacts.
Import ImageGen.

Lemma loop_trace_api_calls ps log : loop_trace ps log -> api_calls log = [].
Proof. induction 1; simpl; auto. Qed.

Lemma loop_trace_converted ps log :
  loop_trace ps log -> converted log = filter has_inline_data ps.
Proof.
  induction 1 as [| p ps log Hp _ IH | p b image ps log Hp _ IH];
    simpl; unfold has_inline_data in *; try rewrite Hp; simpl;
    try rewrite IH; reflexivity.
Qed.

Lemma loop_trace_shown ps log :
  loop_trace ps log ->
  List.length (shown log) = List.length (filter has_inline_data ps).
Proof.
  induction 1 as [| p ps log Hp _ IH | p b image ps log Hp _ IH];
    simpl; unfold has_inline_data in *; try rewrite Hp; simpl;
    try rewrite IH; reflexivity.
Qed.

Lemma display_phase_iterated log :
  Forall (fun en => entry_phase en = DisplayPhase) log -> iterated log = [].
Proof.
  induction 1 as [| en log Hen _ IH]; simpl; [reflexivity |].
  destruct en as [X c r]. destruct c; simpl in *; try discriminate; exact IH.
Qed.

Lemma show_part_calls (p : Part) :
  all_calls (fun X c => phase_of c = DisplayPhase) (show_part p).
Proof.
  unfold show_part. destruct (truthy (inline_data p)); simpl; auto.
Qed.

Lemma main_calls (Q : forall X : Type, call X -> Prop) :
  Q _ NewClient ->
  (forall c m s, Q _ (GenerateContent c m s)) ->
  (forall r, Q _ (ResponseParts r)) ->
  (forall p, Q _ (AsImage p)) ->
  (forall i, Q _ (ImageShow i)) ->
  all_calls Q main.
Proof.
  intros Hc Hg Hp Ha Hs. unfold main, perform. simpl.
  split; [exact Hc |]. intro client.
  split; [apply Hg |]. intro response.
  split; [apply Hp |]. intro parts.
  apply all_calls_for_each. intro p.
  unfold show_part, perform. destruct (truthy (inline_data p)); simpl; auto.
Qed.

Section AnyEnvironment.
Variable W : Type.
Variable handle : forall X : Type, call X -> W -> Except X * W.

Lemma run_show_part_skip (p : Part) (w : W) :
  inline_data p = None ->
  run W handle (show_part p) w = (inr tt, w, []).
Proof. intro Hp. unfold show_part. rewrite Hp. reflexivity. Qed.

Lemma run_show_part_image (p : Part) (b : Blob) (w : W) :
  inline_data p = Some b ->
  run W handle (show_part p) w =
  match handle Image (AsImage p) w with
  | (inl e, w1) => (inl e, w1, [Entry (AsImage p) (inl e)])
  | (inr image, w1) =>
      (fst (handle unit (ImageShow image) w1),
       snd (handle unit (ImageShow image) w1),
       [Entry (AsImage p) (inr image);
        Entry (ImageShow image) (fst (handle unit (ImageShow image) w1))])
  end.
Proof.
  intro Hp. unfold show_part, perform. rewrite Hp. simpl.
  destruct (handle Image (AsImage p) w) as [[e | image] w1]; [reflexivity |].
  simpl. destruct (handle unit (ImageShow image) w1) as [[e | u] w2];
    reflexivity.
Qed.

(** The loop of a run that nothing interrupted went through the parts
    in order and showed exactly those with [inline_data]. *)
Lemma loop_returned (ps : list Part) :
  forall w,
    result W handle (for_each ps show_part) w = inr tt ->
    loop_trace ps (trace W handle (for_each ps show_part) w).
Proof.
  induction ps as [| p ps IH]; intro w.
  - intros _. apply loop_done.
  - unfold result, trace. simpl for_each. rewrite run_bind.
    destruct (inline_data p) as [b |] eqn:Hp.
    + rewrite (run_show_part_image p b w Hp).
      destruct (handle Image (AsImage p) w) as [[e | image] w1];
        [discriminate |].
      destruct (handle unit (ImageShow image) w1) as [[e | []] w2];
        simpl; [discriminate |].
      specialize (IH w2). unfold result, trace in IH.
      destruct (run W handle (for_each ps show_part) w2)
        as [[res w3] log]. simpl in *.
      intro Hres. eapply loop_show; eauto.
    + rewrite (run_show_part_skip p w Hp).
      specialize (IH w). unfold result, trace in IH.
      destruct (run W handle (for_each ps show_part) w)
        as [[res w3] log]. simpl in *.
      intro Hres. apply loop_skip; auto.
Qed.

(** A loop over parts none of which has [inline_data] makes no call. *)
Lemma loop_nothing_to_show (ps : list Part) (w : W) :
  Forall (fun p => inline_data p = None) ps ->
  run W handle (for_each ps show_part) w = (inr tt, w, []).
Proof.
  induction 1 as [| p ps Hp _ IH]; [reflexivity |].
  simpl for_each. rewrite run_bind, (run_show_part_skip p w Hp), IH.
  reflexivity.
Qed.

(** The loop makes at most two calls for each part. *)
Lemma loop_length (ps : list Part) :
  forall w,
    (List.length (trace W handle (for_each ps show_part) w)
     <= 2 * List.length ps)%nat.
Proof.
  induction ps as [| p ps IH]; intro w.
  - simpl. lia.
  - unfold trace. simpl for_each. rewrite run_bind.
    destruct (inline_data p) as [b |] eqn:Hp.
    + rewrite (run_show_part_image p b w Hp).
      destruct (handle Image (AsImage p) w) as [[e | image] w1];
        [simpl; lia |].
      destruct (handle unit (ImageShow image) w1) as [[e | []] w2];
        simpl; [lia |].
      specialize (IH w2). unfold trace in IH.
      destruct (run W handle (for_each ps show_part) w2)
        as [[res w3] log]. simpl in *. lia.
    + rewrite (run_show_part_skip p w Hp).
      specialize (IH w). unfold trace in IH.
      destruct (run W handle (for_each ps show_part) w)
        as [[res w3] log]. simpl in *. lia.
Qed.

(** The run of the script, call by call. *)
Lemma image_run (w : W) :
  run W handle main w =
  match handle Client NewClient w with
  | (inl e, w1) => (inl e, w1, [Entry NewClient (inl e)])
  | (inr client, w1) =>
      match handle Response (GenerateContent client model contents) w1 with
      | (inl e, w2) =>
          (inl e, w2,
           [Entry NewClient (inr client);
            Entry (GenerateContent client model contents) (inl e)])
      | (inr response, w2) =>
          match handle (list Part) (ResponseParts response) w2 with
          | (inl e, w3) =>
              (inl e, w3,
               [Entry NewClient (inr client);
                Entry (GenerateContent client model contents)
                      (inr response);
                Entry (ResponseParts response) (inl e)])
          | (inr parts, w3) =>
              let '(res, w4, log) :=
                run W handle (for_each parts show_part) w3 in
              (res, w4,
               Entry NewClient (inr client)
               :: Entry (GenerateContent client model contents)
                        (inr response)
               :: Entry (ResponseParts response) (inr parts) :: log)
          end
      end
  end.
Proof.
  unfold main, perform. simpl.
  destruct (handle Client NewClient w) as [[e | client] w1];
    [reflexivity |].
  destruct (handle Response (GenerateContent client model contents) w1)
    as [[e | response] w2]; [reflexivity |].
  destruct (handle (list Part) (ResponseParts response) w2)
    as [[e | parts] w3]; [reflexivity |].
  destruct (run W handle (for_each parts show_part) w3)
    as [[res w4] log].
  reflexivity.
Qed.

End AnyEnvironment.
End ImageFacts.

(** ** What the scripts do *)

Module ScriptFacts.
Import Py Effects Shape RunFacts TraceFacts GlyphString.
Import ImageGen.

(** C2: in a run of the image script that no exception ends, the record
    is: the client is built, one request is sent, with the model
    "gemini-2.5-flash-image" and the fixed prompt, the parts of its
    response are taken, and then, part by part and in order, a part is
    turned into an image and shown if it has [inline_data] and leaves no
    line if it has none.  So exactly one request is sent, and the parts
    shown are exactly those with [inline_data]. *)
Theorem image_script_trace :
  forall (W : Type) (handle : forall X : Type, call X -> W -> Except X * W)
         (w : W),
    result W handle main w = inr tt ->
    exists client response parts tail,
      trace W handle main w =
        Entry NewClient (inr client)
        :: Entry (GenerateContent client "gemini-2.5-flash-image"
                    "Create a picture of a futuristic banana with neon lights in a cyberpunk city.")
                 (inr response)
        :: Entry (ResponseParts response) (inr parts) :: tail
      /\ loop_trace parts tail
      /\ api_calls (trace W handle main w) = [(model, contents)]
      /\ converted (trace W handle main w) = filter has_inline_data parts
      /\ List.length (shown (trace W handle main w)) =
         List.length (filter has_inline_data parts).
Proof.
  intros W handle w. unfold result, trace.
  rewrite ImageFacts.image_run.
  destruct (handle Client NewClient w) as [[e | client] w1];
    [discriminate |].
  destruct (handle Response (GenerateContent client model contents) w1)
    as [[e | response] w2]; [discriminate |].
  destruct (handle (list Part) (ResponseParts response) w2)
    as [[e | parts] w3]; [discriminate |].
  pose proof (ImageFacts.loop_returned W handle parts w3) as Hloop.
  unfold result, trace in Hloop.
  destruct (run W handle (for_each parts show_part) w3) as [[res w4] log].
  simpl in *. intro Hres. specialize (Hloop Hres).
  exists client, response, parts, log.
  split; [reflexivity |]. split; [exact Hloop |].
  split; [rewrite (ImageFacts.loop_trace_api_calls _ _ Hloop); reflexivity |].
  split; [apply (ImageFacts.loop_trace_converted _ _ Hloop) |].
  apply (ImageFacts.loop_trace_shown _ _ Hloop).
Qed.

Lemma image_script_trace_witness :
  exists client response parts tail,
    trace nat
      (Worlds.answering
         [Worlds.text_part; Worlds.image_part; Worlds.text_part;
          Worlds.image_part]) main 0%nat =
      Entry NewClient (inr client)
      :: Entry (GenerateContent client "gemini-2.5-flash-image"
                  "Create a picture of a futuristic banana with neon lights in a cyberpunk city.")
               (inr response)
      :: Entry (ResponseParts response) (inr parts) :: tail
    /\ loop_trace parts tail
    /\ api_calls
         (trace nat
            (Worlds.answering
               [Worlds.text_part; Worlds.image_part; Worlds.text_part;
                Worlds.image_part]) main 0%nat) = [(model, contents)]
    /\ converted
         (trace nat
            (Worlds.answering
               [Worlds.text_part; Worlds.image_part; Worlds.text_part;
                Worlds.image_part]) main 0%nat)
       = filter has_inline_data parts
    /\ List.length
         (shown
            (trace nat
               (Worlds.answering
                  [Worlds.text_part; Worlds.image_part; Worlds.text_part;
                   Worlds.image_part]) main 0%nat))
       = List.length (filter has_inline_data parts).
Proof.
  apply (image_script_trace nat
           (Worlds.answering
              [Worlds.text_part; Worlds.image_part; Worlds.text_part;
               Worlds.image_part]) 0%nat).
  reflexivity.
Defined.

(** C7: when the client is built, the request is answered and the parts
    of the response are taken without an exception, and no part has
    [inline_data], the run ends normally right after these three calls:
    nothing is turned into an image, nothing is shown, and no exception
    is reported. *)
Theorem parts_without_inline_data_skipped :
  forall (W : Type) (handle : forall X : Type, call X -> W -> Except X * W)
         (w w1 w2 w3 : W) (client : Client) (response : Response)
         (parts : list Part),
    handle Client NewClient w = (inr client, w1) ->
    handle Response (GenerateContent client model contents) w1 =
      (inr response, w2) ->
    handle (list Part) (ResponseParts response) w2 = (inr parts, w3) ->
    Forall (fun p => inline_data p = None) parts ->
    run W handle main w =
      (inr tt, w3,
       [Entry NewClient (inr client);
        Entry (GenerateContent client model contents) (inr response);
        Entry (ResponseParts response) (inr parts)])
    /\ shown (trace W handle main w) = []
    /\ converted (trace W handle main w) = []
    /\ first_raise (trace W handle main w) = None.
Proof.
  intros W handle w w1 w2 w3 client response parts Hc Hg Hp Hnone.
  assert (Hrun : run W handle main w =
                 (inr tt, w3,
                  [Entry NewClient (inr client);
                   Entry (GenerateContent client model contents)
                         (inr response);
                   Entry (ResponseParts response) (inr parts)])).
  { rewrite ImageFacts.image_run, Hc, Hg, Hp.
    rewrite (ImageFacts.loop_nothing_to_show W handle parts w3 Hnone).
    reflexivity. }
  unfold trace. rewrite Hrun. repeat split; reflexivity.
Qed.

Lemma parts_without_inline_data_skipped_witness :
  run nat (Worlds.answering [Worlds.text_part; Worlds.text_part]) main 5%nat
  = (inr tt, 5%nat,
     [Entry NewClient (inr (ClientRef 0));
      Entry (GenerateContent (ClientRef 0) model contents)
            (inr (ResponseRef 0));
      Entry (ResponseParts (ResponseRef 0))
            (inr [Worlds.text_part; Worlds.text_part])])
  /\ shown (trace nat (Worlds.answering [Worlds.text_part; Worlds.text_part])
                  main 5%nat) = []
  /\ converted
       (trace nat (Worlds.answering [Worlds.text_part; Worlds.text_part])
              main 5%nat) = []
  /\ first_raise
       (trace nat (Worlds.answering [Worlds.text_part; Worlds.text_part])
              main 5%nat) = None.
Proof.
  apply (parts_without_inline_data_skipped nat
           (Worlds.answering [Worlds.text_part; Worlds.text_part])
           5%nat 5%nat 5%nat 5%nat (ClientRef 0) (ResponseRef 0)
           [Worlds.text_part; Worlds.text_part]).
  - reflexivity.
  - reflexivity.
  - reflexivity.
  - repeat constructor.
Defined.

Lemma image_phases (W : Type)
    (handle : forall X : Type, call X -> W -> Except X * W) (w : W) :
  Forall (entry_call (fun X c => phase_of c <> StdoutPhase))
         (trace W handle script w).
Proof.
  apply all_calls_trace. unfold script.
  apply all_calls_bind;
    [simpl; split; [discriminate | intros _; exact I] | intros _].
  apply all_calls_bind;
    [simpl; split; [discriminate | intros _; exact I] | intros _].
  apply ImageFacts.main_calls; simpl; discriminate.
Qed.

Lemma glyph_phases (W : Type)
    (handle : forall X : Type, call X -> W -> Except X * W) (w : W) :
  Forall (entry_call (fun X c => phase_of c = ImportPhase
                                 \/ phase_of c = StdoutPhase))
         (trace W handle Glyph.script w).
Proof.
  apply all_calls_trace. unfold Glyph.script, Glyph.main, perform. simpl.
  auto.
Qed.

(** The result of a call followed by the rest of a script. *)
Lemma result_call (W : Type)
    (handle : forall X : Type, call X -> W -> Except X * W)
    {X R : Type} (c : call X) (f : X -> prog R) (w : W) :
  result W handle (bind (perform c) f) w =
  match handle X c w with
  | (inl e, _) => inl e
  | (inr x, w') => result W handle (f x) w'
  end.
Proof.
  unfold result, perform. simpl.
  destruct (handle X c w) as [[e | x] w']; [reflexivity |].
  destruct (run W handle (f x) w') as [[res w''] log]. reflexivity.
Qed.

(** C3, as the code has it.  The image script, from its first line on,
    ends with the exception [e] exactly when one of its calls raised [e]:
    an import, building the client, the request, taking the parts of the
    response, or turning a part into an image and showing it; it ends
    normally exactly when no call raised.  Each of these calls is made as
    soon as the calls before it returned, and its exception is the result
    of the script, unchanged: the two imports, then the client, the
    request and the parts, then for each part with [inline_data], in
    order, [as_image] and [show].  The glyph script likewise ends with [e]
    exactly when [import sys], the reconfiguration or the print raised
    [e]. *)
Theorem exceptions_propagate :
  forall (W : Type) (handle : forall X : Type, call X -> W -> Except X * W)
         (w : W) (e : exn),
    (result W handle script w = inl e <->
       raised_in ImportPhase (trace W handle script w) e
       \/ raised_in ClientPhase (trace W handle script w) e
       \/ raised_in ApiCallPhase (trace W handle script w) e
       \/ raised_in IterationPhase (trace W handle script w) e
       \/ raised_in DisplayPhase (trace W handle script w) e)
    /\ (result W handle script w = inr tt <->
          Forall (fun en => raised en = None) (trace W handle script w))
    /\ result W handle script w =
         match handle unit (ImportFrom "google" "genai") w with
         | (inl e1, _) => inl e1
         | (inr _, w1) =>
             match handle unit (ImportFrom "PIL" "Image") w1 with
             | (inl e2, _) => inl e2
             | (inr _, w2) => result W handle main w2
             end
         end
    /\ (forall w0,
          result W handle main w0 =
          match handle Client NewClient w0 with
          | (inl e1, _) => inl e1
          | (inr client, w1) =>
              match handle Response
                      (GenerateContent client model contents) w1 with
              | (inl e2, _) => inl e2
              | (inr response, w2) =>
                  match handle (list Part) (ResponseParts response) w2 with
                  | (inl e3, _) => inl e3
                  | (inr parts, w3) =>
                      result W handle (for_each parts show_part) w3
                  end
              end
          end)
    /\ (forall w0, result W handle (for_each [] show_part) w0 = inr tt)
    /\ (forall p parts w0,
          result W handle (for_each (p :: parts) show_part) w0 =
          match inline_data p with
          | None => result W handle (for_each parts show_part) w0
          | Some _ =>
              match handle Image (AsImage p) w0 with
              | (inl e1, _) => inl e1
              | (inr image, w1) =>
                  match handle unit (ImageShow image) w1 with
                  | (inl e2, _) => inl e2
                  | (inr _, w2) =>
                      result W handle (for_each parts show_part) w2
                  end
              end
          end)
    /\ (result W handle Glyph.script w = inl e <->
          raised_in ImportPhase (trace W handle Glyph.script w) e
          \/ raised_in StdoutPhase (trace W handle Glyph.script w) e)
    /\ (result W handle Glyph.script w = inr tt <->
          Forall (fun en => raised en = None)
                 (trace W handle Glyph.script w))
    /\ result W handle Glyph.script w =
         match handle unit (Import "sys") w with
         | (inl e1, _) => inl e1
         | (inr _, w1) =>
             match handle unit (StdoutReconfigure "utf-8") w1 with
             | (inl e2, _) => inl e2
             | (inr _, w2) => fst (handle unit (Print monster) w2)
             end
         end.
Proof.
  intros W handle w e.
  split; [split |].
  { intro Hres. apply result_raised in Hres.
    destruct Hres as [en [Hin Hr]].
    pose proof (image_phases W handle w) as Hph.
    rewrite Forall_forall in Hph. specialize (Hph en Hin).
    destruct en as [X c r]. simpl in Hph.
    destruct (phase_of c) eqn:Hc; [| congruence | | | |].
    - left. exists (Entry c r). auto.
    - right; left. exists (Entry c r). auto.
    - right; right; left. exists (Entry c r). auto.
    - right; right; right; left. exists (Entry c r). auto.
    - right; right; right; right. exists (Entry c r). auto. }
  { intro H. apply result_raised.
    destruct H as [H | [H | [H | [H | H]]]];
      destruct H as [en [Hin [_ Hr]]]; exists en; auto. }
  split; [apply result_returned |].
  split.
  { unfold script. rewrite result_call.
    destruct (handle unit (ImportFrom "google" "genai") w) as [[e1 | u] w1];
      [reflexivity |].
    rewrite result_call. reflexivity. }
  split.
  { intro w0. unfold main. rewrite result_call.
    destruct (handle Client NewClient w0) as [[e1 | client] w1];
      [reflexivity |].
    rewrite result_call.
    destruct (handle Response (GenerateContent client model contents) w1)
      as [[e2 | response] w2]; [reflexivity |].
    rewrite result_call. reflexivity. }
  split; [reflexivity |].
  split.
  { intros p parts w0. unfold result. simpl for_each. rewrite run_bind.
    destruct (inline_data p) as [b |] eqn:Hp.
    - rewrite (ImageFacts.run_show_part_image W handle p b w0 Hp).
      destruct (handle Image (AsImage p) w0) as [[e1 | image] w1];
        [reflexivity |].
      destruct (handle unit (ImageShow image) w1) as [[e2 | []] w2];
        [reflexivity |].
      simpl.
      destruct (run W handle (for_each parts show_part) w2)
        as [[res w3] log]. reflexivity.
    - rewrite (ImageFacts.run_show_part_skip W handle p w0 Hp).
      destruct (run W handle (for_each parts show_part) w0)
        as [[res w3] log]. reflexivity. }
  split; [split |].
  { intro Hres. apply result_raised in Hres.
    destruct Hres as [en [Hin Hr]].
    pose proof (glyph_phases W handle w) as Hph.
    rewrite Forall_forall in Hph. specialize (Hph en Hin).
    destruct en as [X c r]. simpl in Hph.
    destruct Hph as [Hph | Hph]; [left | right];
      exists (Entry c r); auto. }
  { intro H. apply result_raised.
    destruct H as [H | H];
      destruct H as [en [Hin [_ Hr]]]; exists en; auto. }
  split; [apply result_returned |].
  unfold Glyph.script. rewrite result_call.
  destruct (handle unit (Import "sys") w) as [[e1 | u] w1]; [reflexivity |].
  apply GlyphFacts.glyph_result.
Qed.

(** C3, as the claim has it, fails: without an API key the imports succeed
    and building the client raises; the script ends with that exception,
    and neither the request, nor the iteration, nor the display raised,
    none of them having been reached.  The same happens one step earlier
    when the package is not installed and the first import raises. *)
Lemma client_failure_not_listed :
  (result nat (Worlds.no_credentials []) script 0%nat
   = inl Worlds.missing_key
   /\ ~ (raised_in ApiCallPhase
           (trace nat (Worlds.no_credentials []) script 0%nat)
           Worlds.missing_key
         \/ raised_in IterationPhase
              (trace nat (Worlds.no_credentials []) script 0%nat)
              Worlds.missing_key
         \/ raised_in DisplayPhase
              (trace nat (Worlds.no_credentials []) script 0%nat)
              Worlds.missing_key))
  /\ (result nat (Outcomes.not_installed []) script 0%nat
      = inl Outcomes.module_not_found
      /\ ~ (raised_in ApiCallPhase
              (trace nat (Outcomes.not_installed []) script 0%nat)
              Outcomes.module_not_found
            \/ raised_in IterationPhase
                 (trace nat (Outcomes.not_installed []) script 0%nat)
                 Outcomes.module_not_found
            \/ raised_in DisplayPhase
                 (trace nat (Outcomes.not_installed []) script 0%nat)
                 Outcomes.module_not_found)).
Proof.
  split; (split; [reflexivity |]).
  - assert (Htrace : trace nat (Worlds.no_credentials []) script 0%nat =
                     [Entry (ImportFrom "google" "genai") (inr tt);
                      Entry (ImportFrom "PIL" "Image") (inr tt);
                      Entry NewClient (inl Worlds.missing_key)])
      by reflexivity.
    rewrite Htrace.
    intros [H | [H | H]];
      destruct H as [en [[Hen | [Hen | [Hen | []]]] [Hph _]]];
      subst en; discriminate Hph.
  - assert (Htrace : trace nat (Outcomes.not_installed []) script 0%nat =
                     [Entry (ImportFrom "google" "genai")
                            (inl Outcomes.module_not_found)])
      by reflexivity.
    rewrite Htrace.
    intros [H | [H | H]]; destruct H as [en [[Hen | []] [Hph _]]];
      subst en; discriminate Hph.
Qed.

(** C4: every call of the glyph script acts on standard output, first
    the reconfiguration and then at most the print of [monster]; the calls
    of the image script act on nothing (objects in memory), on the network
    (the request) or on the display (showing an image), and never on
    standard output. *)
Theorem effects_are_confined :
  forall (W : Type) (handle : forall X : Type, call X -> W -> Except X * W)
         (w : W),
    Forall (fun en => entry_effect en = StdoutEffect)
           (trace W handle Glyph.main w)
    /\ (exists r rest,
          trace W handle Glyph.main w =
            Entry (StdoutReconfigure "utf-8") r :: rest
          /\ (rest = [] \/ exists r', rest = [Entry (Print monster) r']))
    /\ Forall (fun en => entry_effect en = NoEffect
                         \/ entry_effect en = NetworkEffect
                         \/ entry_effect en = DisplayEffect)
              (trace W handle main w)
    /\ Forall (fun en => entry_effect en = NetworkEffect ->
                         exists client r,
                           en = Entry (GenerateContent client model contents)
                                      r)
              (trace W handle main w).
Proof.
  intros W handle w. repeat split.
  - eapply Forall_impl;
      [| apply (all_calls_trace W handle
                  (fun X c => effect_of c = StdoutEffect))].
    + intros [X c r] H. exact H.
    + unfold Glyph.main, perform. simpl. auto.
  - rewrite GlyphFacts.glyph_trace.
    destruct (handle unit (StdoutReconfigure "utf-8") w) as [[e | u] w'].
    + exists (inl e), []. split; [reflexivity | left; reflexivity].
    + exists (inr u), [Entry (Print monster)
                             (fst (handle unit (Print monster) w'))].
      split; [reflexivity | right; eexists; reflexivity].
  - eapply Forall_impl;
      [| apply (all_calls_trace W handle
                  (fun X c => effect_of c = NoEffect
                              \/ effect_of c = NetworkEffect
                              \/ effect_of c = DisplayEffect))].
    + intros [X c r] H. exact H.
    + apply ImageFacts.main_calls; simpl; auto.
  - unfold trace. rewrite ImageFacts.image_run.
    assert (Hloop : forall ps w0,
               Forall (fun en => entry_effect en = NetworkEffect ->
                         exists client r,
                           en = Entry (GenerateContent client model contents)
                                      r)
                      (trace W handle (for_each ps show_part) w0)).
    { intros ps w0.
      pose proof (all_calls_trace W handle
                    (fun X c => phase_of c = DisplayPhase)
                    (for_each ps show_part) w0
                    (all_calls_for_each _ ps show_part
                       ImageFacts.show_part_calls)) as Hd.
      eapply Forall_impl; [| exact Hd].
      intros [X c r] Hc Hn. simpl in *.
      destruct c; simpl in *; discriminate. }
    destruct (handle Client NewClient w) as [[e | client] w1].
    { repeat constructor; simpl; discriminate. }
    destruct (handle Response (GenerateContent client model contents) w1)
      as [[e | response] w2].
    { repeat constructor; simpl; try discriminate; eauto. }
    destruct (handle (list Part) (ResponseParts response) w2)
      as [[e | parts] w3].
    { repeat constructor; simpl; try discriminate; eauto. }
    specialize (Hloop parts w3). unfold trace in Hloop.
    destruct (run W handle (for_each parts show_part) w3) as [[res w4] log].
    simpl in *.
    repeat constructor; simpl; try discriminate; eauto.
Qed.

(** C8: both scripts are total.  In every environment whose calls come
    back, a run of the glyph script ends after at most two calls, with a
    string of 61 code points built by repetitions and concatenations; the
    loop of the image script makes at most two calls for each part of the
    finite list it ranges over, so a run of the image script ends after
    at most three calls and two more for each part of the response. *)
Theorem scripts_terminate :
  forall (W : Type) (handle : forall X : Type, call X -> W -> Except X * W)
         (w : W),
    (exists res w' log,
       run W handle Glyph.main w = (res, w', log)
       /\ (List.length log <= 2)%nat)
    /\ len monster = 61
    /\ (forall parts w0,
          exists res w' log,
            run W handle (for_each parts show_part) w0 = (res, w', log)
            /\ (List.length log <= 2 * List.length parts)%nat)
    /\ (exists res w' log,
          run W handle main w = (res, w', log)
          /\ (List.length log <= 3 + 2 * List.length (iterated log))%nat).
Proof.
  intros W handle w. repeat split.
  - pose proof (GlyphFacts.glyph_trace W handle w) as Ht. unfold trace in Ht.
    destruct (run W handle Glyph.main w) as [[res w'] log]. simpl in Ht.
    exists res, w', log. split; [reflexivity |]. rewrite Ht.
    destruct (handle unit (StdoutReconfigure "utf-8") w) as [[e | u] w1];
      simpl; lia.
  - intros parts w0.
    pose proof (ImageFacts.loop_length W handle parts w0) as Hlen.
    unfold trace in Hlen.
    destruct (run W handle (for_each parts show_part) w0)
      as [[res w'] log]. simpl in Hlen.
    exists res, w', log. split; [reflexivity | exact Hlen].
  - rewrite ImageFacts.image_run.
    destruct (handle Client NewClient w) as [[e | client] w1].
    { do 3 eexists. split; [reflexivity | simpl; lia]. }
    destruct (handle Response (GenerateContent client model contents) w1)
      as [[e | response] w2].
    { do 3 eexists. split; [reflexivity | simpl; lia]. }
    destruct (handle (list Part) (ResponseParts response) w2)
      as [[e | parts] w3].
    { do 3 eexists. split; [reflexivity | simpl; lia]. }
    pose proof (ImageFacts.loop_length W handle parts w3) as Hlen.
    unfold trace in Hlen.
    destruct (run W handle (for_each parts show_part) w3)
      as [[res w4] log]. simpl in Hlen.
    do 3 eexists. split; [reflexivity |].
    simpl. rewrite length_app. lia.
Qed.

End ScriptFacts.


(** ** The loop of the image script when a call raises *)

Module LoopFacts.
Import Py Effects Shape Outcomes RunFacts TraceFacts.
Import ImageGen.

Section AnyEnvironment.
Variable W : Type.
Variable handle : forall X : Type, call X -> W -> Except X * W.

(** A loop over [ps1 ++ ps2] is the loop over [ps1] and then, unless it
    raised, the loop over [ps2]. *)
Lemma run_for_each_app {A : Type} (body : A -> prog unit) (ps1 ps2 : list A) :
  forall w,
    run W handle (for_each (ps1 ++ ps2) body) w =
    match run W handle (for_each ps1 body) w with
    | (inl e, w', log) => (inl e, w', log)
    | (inr _, w', log) =>
        let '(res, w'', log') := run W handle (for_each ps2 body) w' in
        (res, w'', log ++ log')
    end.
Proof.
  induction ps1 as [| p ps1 IH]; intro w.
  - simpl. destruct (run W handle (for_each ps2 body) w) as [[res w''] log'].
    reflexivity.
  - simpl app. simpl for_each. rewrite !run_bind.
    destruct (run W handle (body p) w) as [[[e | u] w1] log1];
      [reflexivity |].
    rewrite IH.
    destruct (run W handle (for_each ps1 body) w1) as [[[e | u'] w2] log2];
      [reflexivity |].
    destruct (run W handle (for_each ps2 body) w2) as [[res w3] log3].
    rewrite app_assoc. reflexivity.
Qed.

(** The loop behaves as the loop over the parts that have [inline_data]:
    the other parts change neither the result, nor the environment, nor
    the record, also when a call raises. *)
Theorem loop_ignores_parts_without_data :
  forall (parts : list Part) (w : W),
    run W handle (for_each parts show_part) w =
    run W handle (for_each (filter has_inline_data parts) show_part) w.
Proof.
  induction parts as [| p parts IH]; intro w; [reflexivity |].
  simpl filter. unfold has_inline_data at 1.
  destruct (inline_data p) as [b |] eqn:Hp; simpl truthy; cbv iota.
  - simpl for_each. rewrite !run_bind.
    destruct (run W handle (show_part p) w) as [[[e | u] w1] log1];
      [reflexivity |].
    rewrite IH. reflexivity.
  - simpl for_each. rewrite run_bind.
    rewrite (ImageFacts.run_show_part_skip W handle p w Hp).
    rewrite <- IH.
    destruct (run W handle (for_each parts show_part) w) as [[res w'] log].
    reflexivity.
Qed.

Lemma run_loop_from (pre post : list Part) (p : Part) (w w1 : W) log :
  run W handle (for_each pre show_part) w = (inr tt, w1, log) ->
  run W handle (for_each (pre ++ p :: post) show_part) w =
  match run W handle (show_part p) w1 with
  | (inl e, w2, log2) => (inl e, w2, log ++ log2)
  | (inr _, w2, log2) =>
      let '(res, w3, log3) := run W handle (for_each post show_part) w2 in
      (res, w3, log ++ log2 ++ log3)
  end.
Proof.
  intro Hpre. rewrite run_for_each_app, Hpre.
  simpl for_each. rewrite run_bind.
  destruct (run W handle (show_part p) w1) as [[[e | u] w2] log2];
    [reflexivity |].
  destruct (run W handle (for_each post show_part) w2) as [[res w3] log3].
  reflexivity.
Qed.

(** When [as_image] raises on a part, the script ends with that
    exception right there: the parts before it have been handled, and the
    parts after it are neither turned into images nor shown. *)
Theorem conversion_failure_stops_loop :
  forall (w w1 w2 w3 w4 w5 : W) (client : Client) (response : Response)
         (pre post : list Part) (p : Part) (b : Blob) (log : list entry)
         (e : exn),
    handle Client NewClient w = (inr client, w1) ->
    handle Response (GenerateContent client model contents) w1 =
      (inr response, w2) ->
    handle (list Part) (ResponseParts response) w2 =
      (inr (pre ++ p :: post), w3) ->
    run W handle (for_each pre show_part) w3 = (inr tt, w4, log) ->
    inline_data p = Some b ->
    handle Image (AsImage p) w4 = (inl e, w5) ->
    run W handle main w =
    (inl e, w5,
     Entry NewClient (inr client)
     :: Entry (GenerateContent client model contents) (inr response)
     :: Entry (ResponseParts response) (inr (pre ++ p :: post))
     :: log ++ [Entry (AsImage p) (inl e)]).
Proof.
  intros w w1 w2 w3 w4 w5 client response pre post p b log e
         Hc Hg Hp Hpre Hb Ha.
  rewrite ImageFacts.image_run, Hc, Hg, Hp.
  rewrite (run_loop_from pre post p w3 w4 log Hpre).
  rewrite (ImageFacts.run_show_part_image W handle p b w4 Hb), Ha.
  reflexivity.
Qed.

(** When [show] raises on an image, the script ends with that exception
    right there: the parts after it are neither turned into images nor
    shown. *)
Theorem show_failure_stops_loop :
  forall (w w1 w2 w3 w4 w5 w6 : W) (client : Client) (response : Response)
         (pre post : list Part) (p : Part) (b : Blob) (image : Image)
         (log : list entry) (e : exn),
    handle Client NewClient w = (inr client, w1) ->
    handle Response (GenerateContent client model contents) w1 =
      (inr response, w2) ->
    handle (list Part) (ResponseParts response) w2 =
      (inr (pre ++ p :: post), w3) ->
    run W handle (for_each pre show_part) w3 = (inr tt, w4, log) ->
    inline_data p = Some b ->
    handle Image (AsImage p) w4 = (inr image, w5) ->
    handle unit (ImageShow image) w5 = (inl e, w6) ->
    run W handle main w =
    (inl e, w6,
     Entry NewClient (inr client)
     :: Entry (GenerateContent client model contents) (inr response)
     :: Entry (ResponseParts response) (inr (pre ++ p :: post))
     :: log ++ [Entry (AsImage p) (inr image);
                Entry (ImageShow image) (inl e)]).
Proof.
  intros w w1 w2 w3 w4 w5 w6 client response pre post p b image log e
         Hc Hg Hp Hpre Hb Ha Hs.
  rewrite ImageFacts.image_run, Hc, Hg, Hp.
  rewrite (run_loop_from pre post p w3 w4 log Hpre).
  rewrite (ImageFacts.run_show_part_image W handle p b w4 Hb), Ha, Hs.
  reflexivity.
Qed.

End AnyEnvironment.

Lemma conversion_failure_stops_loop_witness :
  run nat
      (picky 9 [Worlds.image_part; Worlds.text_part; corrupt_part;
                Worlds.image_part])
      main 0%nat =
  (inl decode_error, 1%nat,
   Entry NewClient (inr (ClientRef 0))
   :: Entry (GenerateContent (ClientRef 0) model contents)
            (inr (ResponseRef 0))
   :: Entry (ResponseParts (ResponseRef 0))
            (inr ([Worlds.image_part; Worlds.text_part]
                    ++ corrupt_part :: [Worlds.image_part]))
   :: [Entry (AsImage Worlds.image_part) (inr (ImageRef 0));
       Entry (ImageShow (ImageRef 0)) (inr tt)]
      ++ [Entry (AsImage corrupt_part) (inl decode_error)]).
Proof.
  apply (conversion_failure_stops_loop nat
           (picky 9 [Worlds.image_part; Worlds.text_part; corrupt_part;
                     Worlds.image_part])
           0%nat 0%nat 0%nat 0%nat 1%nat 1%nat (ClientRef 0) (ResponseRef 0)
           [Worlds.image_part; Worlds.text_part] [Worlds.image_part]
           corrupt_part {| mime_type := "image/png"; data := [] |});
    reflexivity.
Defined.

Lemma show_failure_stops_loop_witness :
  run nat
      (picky 1 [Worlds.image_part; Worlds.image_part; Worlds.image_part])
      main 0%nat =
  (inl viewer_error, 2%nat,
   Entry NewClient (inr (ClientRef 0))
   :: Entry (GenerateContent (ClientRef 0) model contents)
            (inr (ResponseRef 0))
   :: Entry (ResponseParts (ResponseRef 0))
            (inr ([Worlds.image_part] ++ Worlds.image_part
                    :: [Worlds.image_part]))
   :: [Entry (AsImage Worlds.image_part) (inr (ImageRef 0));
       Entry (ImageShow (ImageRef 0)) (inr tt)]
      ++ [Entry (AsImage Worlds.image_part) (inr (ImageRef 1));
          Entry (ImageShow (ImageRef 1)) (inl viewer_error)]).
Proof.
  apply (show_failure_stops_loop nat
           (picky 1 [Worlds.image_part; Worlds.image_part; Worlds.image_part])
           0%nat 0%nat 0%nat 0%nat 1%nat 2%nat 2%nat
           (ClientRef 0) (ResponseRef 0)
           [Worlds.image_part] [Worlds.image_part]
           Worlds.image_part Worlds.png (ImageRef 1));
    reflexivity.
Defined.

End LoopFacts.

(** ** What holds of every run of the image script *)

Module InvariantFacts.
Import Py Effects Shape Outcomes TextStream RunFacts TraceFacts.
Import ImageGen.

Lemma display_phase_api_calls log :
  Forall (fun en => entry_phase en = DisplayPhase) log -> api_calls log = [].
Proof.
  induction 1 as [| en log Hen _ IH]; simpl; [reflexivity |].
  destruct en as [X c r]. destruct c; simpl in *; try discriminate; exact IH.
Qed.

Lemma loop_display_phase (W : Type)
    (handle : forall X : Type, call X -> W -> Except X * W)
    (parts : list Part) (w : W) :
  Forall (fun en => entry_phase en = DisplayPhase)
         (trace W handle (for_each parts show_part) w).
Proof.
  eapply Forall_impl;
    [| apply (all_calls_trace W handle
                (fun X c => phase_of c = DisplayPhase))].
  - intros [X c r] H. exact H.
  - apply all_calls_for_each. apply ImageFacts.show_part_calls.
Qed.

Section AnyEnvironment.
Variable W : Type.
Variable handle : forall X : Type, call X -> W -> Except X * W.

(** The script sends no request when the client cannot be built, and
    exactly one, with the fixed model and prompt, in every other run,
    whatever raises afterwards: a request is never repeated. *)
Theorem at_most_one_request :
  forall w : W,
    api_calls (trace W handle main w) =
    match fst (handle Client NewClient w) with
    | inl _ => []
    | inr _ => [(model, contents)]
    end.
Proof.
  intro w. unfold trace. rewrite ImageFacts.image_run.
  destruct (handle Client NewClient w) as [[e | client] w1];
    [reflexivity |].
  destruct (handle Response (GenerateContent client model contents) w1)
    as [[e | response] w2]; [reflexivity |].
  destruct (handle (list Part) (ResponseParts response) w2)
    as [[e | parts] w3]; [reflexivity |].
  pose proof (loop_display_phase W handle parts w3) as Hph.
  apply display_phase_api_calls in Hph. unfold trace in Hph.
  destruct (run W handle (for_each parts show_part) w3) as [[res w4] log].
  simpl in *. rewrite Hph. reflexivity.
Qed.

(** The loop in any run, also one that an exception ends. *)
Lemma loop_invariant (parts : list Part) :
  forall w,
    shown (trace W handle (for_each parts show_part) w) =
      made (trace W handle (for_each parts show_part) w)
    /\ exists rest,
         filter has_inline_data parts =
         converted (trace W handle (for_each parts show_part) w) ++ rest.
Proof.
  induction parts as [| p parts IH]; intro w.
  - split; [reflexivity | exists []; reflexivity].
  - unfold trace. simpl for_each. rewrite run_bind.
    simpl filter. unfold has_inline_data at 1.
    destruct (inline_data p) as [b |] eqn:Hp; simpl truthy; cbv iota.
    + rewrite (ImageFacts.run_show_part_image W handle p b w Hp).
      destruct (handle Image (AsImage p) w) as [[e | image] w1].
      { simpl. split; [reflexivity |].
        exists (filter has_inline_data parts). reflexivity. }
      destruct (handle unit (ImageShow image) w1) as [[e | []] w2]; simpl.
      { split; [reflexivity |].
        exists (filter has_inline_data parts). reflexivity. }
      destruct (IH w2) as [Hs [rest Hrest]]. unfold trace in Hs, Hrest.
      destruct (run W handle (for_each parts show_part) w2)
        as [[res w3] log]. simpl in *.
      split; [rewrite Hs; reflexivity |].
      exists rest. rewrite Hrest. reflexivity.
    + rewrite (ImageFacts.run_show_part_skip W handle p w Hp).
      destruct (IH w) as [Hs [rest Hrest]]. unfold trace in Hs, Hrest.
      destruct (run W handle (for_each parts show_part) w)
        as [[res w3] log]. simpl in *.
      split; [exact Hs | exists rest; exact Hrest].
Qed.

(** In every run, also one that an exception ends: every image that
    [as_image] returned is handed to [show], in that order, and nothing
    else is shown; and the parts turned into images are, in order, the
    first of the parts of the response that have [inline_data], so a part
    without [inline_data] is never turned into an image. *)
Theorem only_inline_data_is_shown :
  forall w : W,
    shown (trace W handle main w) = made (trace W handle main w)
    /\ (exists rest,
          filter has_inline_data (iterated (trace W handle main w)) =
          converted (trace W handle main w) ++ rest)
    /\ Forall (fun p => inline_data p <> None)
              (converted (trace W handle main w)).
Proof.
  intro w.
  assert (Hmain :
            shown (trace W handle main w) = made (trace W handle main w)
            /\ exists rest,
                 filter has_inline_data (iterated (trace W handle main w)) =
                 converted (trace W handle main w) ++ rest).
  { unfold trace. rewrite ImageFacts.image_run.
    destruct (handle Client NewClient w) as [[e | client] w1].
    { split; [reflexivity | exists []; reflexivity]. }
    destruct (handle Response (GenerateContent client model contents) w1)
      as [[e | response] w2].
    { split; [reflexivity | exists []; reflexivity]. }
    destruct (handle (list Part) (ResponseParts response) w2)
      as [[e | parts] w3].
    { split; [reflexivity | exists []; reflexivity]. }
    destruct (loop_invariant parts w3) as [Hs [rest Hrest]].
    pose proof (loop_display_phase W handle parts w3) as Hph.
    apply ImageFacts.display_phase_iterated in Hph.
    unfold trace in Hs, Hrest, Hph.
    destruct (run W handle (for_each parts show_part) w3)
      as [[res w4] log]. simpl in *.
    split; [exact Hs |].
    exists rest. rewrite Hph, app_nil_r. exact Hrest. }
  destruct Hmain as [Hs [rest Hrest]].
  split; [exact Hs |]. split; [exists rest; exact Hrest |].
  apply Forall_forall. intros p Hin.
  assert (Hf : In p (filter has_inline_data
                            (iterated (trace W handle main w))))
    by (rewrite Hrest; apply in_or_app; left; exact Hin).
  apply filter_In in Hf. destruct Hf as [_ Hd].
  unfold has_inline_data in Hd.
  destruct (inline_data p); [discriminate | discriminate Hd].
Qed.

(** A script that makes no call on standard output runs, in an
    environment with a text stream for standard output, as it runs in the
    rest of that environment, and leaves the stream as it was. *)
Lemma run_beside_stdout {R : Type} (p : prog R) :
  all_calls (fun X c => phase_of c <> StdoutPhase) p ->
  forall (io : stream) (w : W),
    run (stream * W) (with_stdout handle) p (io, w) =
    (let '(res, w', log) := run W handle p w in (res, (io, w'), log)).
Proof.
  induction p as [r | X c k IH]; intros Hp io w.
  - reflexivity.
  - destruct Hp as [Hc Hk].
    assert (Hh : with_stdout handle X c (io, w) =
                 (let '(r, w') := handle X c w in (r, (io, w')))).
    { destruct c; simpl in Hc; try congruence; reflexivity. }
    simpl run. rewrite Hh.
    destruct (handle X c w) as [[e | x] w']; [reflexivity |].
    rewrite (IH x (Hk x) io w').
    destruct (run W handle (k x) w') as [[res w''] log]. reflexivity.
Qed.

(** The image script writes nothing to standard output and does not
    reconfigure it: run beside a text stream, it does what it does without
    one, and the stream, with its settings and the bytes written, is the
    same afterwards, also when the run ends with an exception. *)
Theorem image_script_leaves_stdout :
  forall (io : stream) (w : W),
    run (stream * W) (with_stdout handle) main (io, w) =
    (let '(res, w', log) := run W handle main w in (res, (io, w'), log)).
Proof.
  apply run_beside_stdout.
  apply ImageFacts.main_calls; simpl; discriminate.
Qed.

(** The glyph script on a closed standard output: the reconfiguration
    raises [ValueError], the script ends with it, [print] is never
    called, no byte is written and the rest of the environment is
    untouched. *)
Theorem glyph_on_closed_stdout :
  forall (io : stream) (w : W),
    closed io = true ->
    run (stream * W) (with_stdout handle) Glyph.main (io, w) =
    (inl closed_error, (io, w),
     [Entry (StdoutReconfigure "utf-8") (inl closed_error)]).
Proof.
  intros io w Hclosed.
  unfold Glyph.main, perform.
  cbn [bind run with_stdout fst snd].
  unfold reconfigure. rewrite Hclosed. reflexivity.
Qed.

End AnyEnvironment.

Lemma glyph_on_closed_stdout_witness :
  closed closed_stdout = true
  /\ run (stream * nat) (with_stdout (Worlds.answering [])) Glyph.main
         (closed_stdout, 3%nat) =
     (inl closed_error, (closed_stdout, 3%nat),
      [Entry (StdoutReconfigure "utf-8") (inl closed_error)]).
Proof.
  split; [reflexivity |].
  apply (glyph_on_closed_stdout nat (Worlds.answering []) closed_stdout
           3%nat).
  reflexivity.
Defined.

End InvariantFacts.
